(** * bm::EventLogger (include/bm/bm_sim/event_logger.h)

    A shallow embedding of the event logger of the behavioral model:
    the [EventLogger] class with its constructor, the function-local
    static behind [get], the two assignments of [init], the [BMELOG]
    macro, and the per-event methods.

    Only the header is available.  What the header declares but does not
    define (the bodies of the per-event methods, the transport interface
    of transport.h, the classes that are only forward-declared) is
    modelled from the specification; every such definition says so. *)

From Stdlib Require Import ZArith List String.
Import ListNotations.
Open Scope Z_scope.

Module bm.

(** ** Identifier types *)

(** Modelled from the spec: device_id.h is missing; the device id is an
    integer tag. *)
Definition device_id_t := Z.

(** Modelled from the spec: phv_forward.h is missing; a header identifier
    is a small integer. *)
Definition header_id_t := Z.

(** [using entry_handle_t = uint32_t;]  The logger never computes with a
    handle, so no wrap-around arises: it is carried as it is. *)
Definition entry_handle_t := Z.

Definition packet_id_t := Z.
Definition p4object_id_t := Z.

(** ** Packets and P4 objects

    In the header these are forward declarations only. *)

(** Modelled from the spec: class Packet is missing; the logger reads the
    packet identifier and the ingress and egress ports. *)
Record Packet := mkPacket {
  packet_id : packet_id_t;
  ingress_port : Z;
  egress_port : Z
}.

(** Modelled from the spec: the P4 object classes are missing; each
    exposes a stable identifier and the logger reads nothing else. *)
Record Parser := mkParser { parser_id : p4object_id_t }.
Record Deparser := mkDeparser { deparser_id : p4object_id_t }.
Record MatchTableAbstract := mkTable { table_id : p4object_id_t }.
Record ActionFn := mkActionFn { action_id : p4object_id_t }.
Record ActionData := mkActionData { action_data_ref : Z }.
Record Conditional := mkConditional { cond_id : p4object_id_t }.
Record Checksum := mkChecksum { checksum_id : p4object_id_t }.
Record Pipeline := mkPipeline { pipeline_id : p4object_id_t }.

Inductive P4Object :=
| a_parser (o : Parser)
| a_deparser (o : Deparser)
| a_table (o : MatchTableAbstract)
| an_action (o : ActionFn)
| a_conditional (o : Conditional)
| a_checksum (o : Checksum)
| a_pipeline (o : Pipeline).

(** ** Messages *)

(** Modelled from the spec: the event kinds, one per significant pipeline
    transition (section 3).  The spec fixes no numeric discriminants, so
    the kind stays symbolic. *)
Inductive EventKind :=
| PacketIn | PacketOut
| ParserStart | ParserDone | ParserExtract
| DeparserStart | DeparserDone | DeparserEmit
| ChecksumUpdate
| PipelineStart | PipelineDone
| ConditionEval | TableHit | TableMiss
| ActionExecute
| ConfigChange.

(** Modelled from the spec: the names of the fields of the message layout
    of sections 4.1 and 6 and of the table of section 3. *)
Inductive FieldName :=
| f_device_id | f_kind | f_packet_id
| f_port | f_parser_id | f_header_id | f_deparser_id | f_checksum_id
| f_pipeline_id | f_cond_id | f_result | f_table_id | f_handle
| f_action_id | f_action_data.

Inductive Value :=
| VInt (z : Z)
| VBool (b : bool)
| VKind (k : EventKind).

(** A message in decoded form: the ordered sequence of its typed fields. *)
Definition Field : Type := FieldName * Value.
Definition Message := list Field.

(** ** The transport *)

(** Modelled from the spec: what a publish reports.  A drop or a failure
    is the only kind of failure at this layer. *)
Inductive PublishStatus :=
| Delivered
| Dropped
| Failed (code : Z).

(** Modelled from the spec: transport.h is missing.  A transport is a
    capability with one publish operation.  [t_state] is what the
    transport holds or has put on its channel, [t_publish] what one
    publish does to it and reports, [t_addr] names the endpoint.
    A transport may drop, reorder or refuse: [t_publish] is arbitrary. *)
Record TransportIface := mkTransport {
  t_addr : string;
  t_state : list Message;
  t_publish : list Message -> Message -> list Message * PublishStatus
}.

Definition set_state (t : TransportIface) (st : list Message) : TransportIface :=
  {| t_addr := t_addr t; t_state := st; t_publish := t_publish t |}.

(** One publish: the transport after it, and what it reported. *)
Definition publish (t : TransportIface) (m : Message)
  : TransportIface * PublishStatus :=
  let '(st, r) := t_publish t (t_state t) m in (set_state t st, r).

(** Modelled from the spec: [TransportIface::make_dummy()], the transport
    that accepts and discards every message. *)
Definition make_dummy : TransportIface :=
  {| t_addr := EmptyString; t_state := [];
     t_publish := fun st _ => (st, Delivered) |}.

(** A transport that keeps every message in order: a perfect collector,
    used to observe what a logger publishes. *)
Definition make_collector (addr : string) : TransportIface :=
  {| t_addr := addr; t_state := [];
     t_publish := fun st m => (st ++ [m], Delivered) |}.

(** ** class EventLogger *)

(** The two private members.  The owning handle
    [std::unique_ptr<TransportIface>] is modelled by the transport it
    owns; an empty handle is not modelled, and nothing below is about a
    call made through one. *)
Record EventLogger := mkEventLogger {
  transport_instance : TransportIface;
  device_id : device_id_t
}.

(** A parameter with a default argument: [None] is the call that omits
    it. *)
Definition default_arg {A : Type} (dflt : A) (arg : option A) : A :=
  match arg with
  | Some a => a
  | None => dflt
  end.

(** [explicit EventLogger(std::unique_ptr<TransportIface> transport,
                          device_id_t device_id = 0)] *)
Definition EventLogger_new (transport : TransportIface)
  (device_id_arg : option device_id_t) : EventLogger :=
  {| transport_instance := transport;
     device_id := default_arg 0 device_id_arg |}.

Definition set_transport_instance (t : TransportIface) (self : EventLogger)
  : EventLogger :=
  {| transport_instance := t; device_id := device_id self |}.

Definition set_device_id (d : device_id_t) (self : EventLogger) : EventLogger :=
  {| transport_instance := transport_instance self; device_id := d |}.

(** ** Message construction *)

(** Modelled from the spec: the bodies of the per-event methods are
    missing.  Section 4.1: device id, event kind, packet identifier, then
    the variant-specific fields in the order of section 3. *)
Definition msg_hdr (d : device_id_t) (k : EventKind) (packet : Packet)
  : Message :=
  [(f_device_id, VInt d); (f_kind, VKind k);
   (f_packet_id, VInt (packet_id packet))].

(** Modelled from the spec: the method bodies are missing.  Build nothing
    else, publish once, and drop what the transport reports. *)
Definition send (self : EventLogger) (m : Message) : EventLogger :=
  let '(t, _) := publish (transport_instance self) m in
  set_transport_instance t self.

(** The per-event methods, with the parameters of the header.  Each is
    [void].  What a call leaves behind is the logger and the objects it
    was handed by reference: the header passes them as [const &], and
    they are threaded through all the same, so that a body that wrote to
    one of them would show.  Arguments passed by value are not. *)
Record After (R : Type) := mkAfter {
  logger_after : EventLogger;
  refs_after : R
}.
Arguments mkAfter {R} _ _.
Arguments logger_after {R} _.
Arguments refs_after {R} _.

(** Modelled from the spec: the bodies of the methods are missing.  Each
    builds its message, publishes it once and touches nothing else. *)
Definition packet_in (self : EventLogger) (packet : Packet) : After Packet :=
  mkAfter
    (send self (msg_hdr (device_id self) PacketIn packet
                ++ [(f_port, VInt (ingress_port packet))]))
    packet.

Definition packet_out (self : EventLogger) (packet : Packet) : After Packet :=
  mkAfter
    (send self (msg_hdr (device_id self) PacketOut packet
                ++ [(f_port, VInt (egress_port packet))]))
    packet.

Definition parser_start (self : EventLogger) (packet : Packet)
  (parser : Parser) : After (Packet * Parser) :=
  mkAfter
    (send self (msg_hdr (device_id self) ParserStart packet
                ++ [(f_parser_id, VInt (parser_id parser))]))
    (packet, parser).

Definition parser_done (self : EventLogger) (packet : Packet)
  (parser : Parser) : After (Packet * Parser) :=
  mkAfter
    (send self (msg_hdr (device_id self) ParserDone packet
                ++ [(f_parser_id, VInt (parser_id parser))]))
    (packet, parser).

Definition parser_extract (self : EventLogger) (packet : Packet)
  (header : header_id_t) : After Packet :=
  mkAfter
    (send self (msg_hdr (device_id self) ParserExtract packet
                ++ [(f_header_id, VInt header)]))
    packet.

Definition deparser_start (self : EventLogger) (packet : Packet)
  (deparser : Deparser) : After (Packet * Deparser) :=
  mkAfter
    (send self (msg_hdr (device_id self) DeparserStart packet
                ++ [(f_deparser_id, VInt (deparser_id deparser))]))
    (packet, deparser).

Definition deparser_done (self : EventLogger) (packet : Packet)
  (deparser : Deparser) : After (Packet * Deparser) :=
  mkAfter
    (send self (msg_hdr (device_id self) DeparserDone packet
                ++ [(f_deparser_id, VInt (deparser_id deparser))]))
    (packet, deparser).

Definition deparser_emit (self : EventLogger) (packet : Packet)
  (header : header_id_t) : After Packet :=
  mkAfter
    (send self (msg_hdr (device_id self) DeparserEmit packet
                ++ [(f_header_id, VInt header)]))
    packet.

Definition checksum_update (self : EventLogger) (packet : Packet)
  (checksum : Checksum) : After (Packet * Checksum) :=
  mkAfter
    (send self (msg_hdr (device_id self) ChecksumUpdate packet
                ++ [(f_checksum_id, VInt (checksum_id checksum))]))
    (packet, checksum).

Definition pipeline_start (self : EventLogger) (packet : Packet)
  (pipeline : Pipeline) : After (Packet * Pipeline) :=
  mkAfter
    (send self (msg_hdr (device_id self) PipelineStart packet
                ++ [(f_pipeline_id, VInt (pipeline_id pipeline))]))
    (packet, pipeline).

Definition pipeline_done (self : EventLogger) (packet : Packet)
  (pipeline : Pipeline) : After (Packet * Pipeline) :=
  mkAfter
    (send self (msg_hdr (device_id self) PipelineDone packet
                ++ [(f_pipeline_id, VInt (pipeline_id pipeline))]))
    (packet, pipeline).

Definition condition_eval (self : EventLogger) (packet : Packet)
  (cond : Conditional) (result : bool) : After (Packet * Conditional) :=
  mkAfter
    (send self (msg_hdr (device_id self) ConditionEval packet
                ++ [(f_cond_id, VInt (cond_id cond));
                    (f_result, VBool result)]))
    (packet, cond).

Definition table_hit (self : EventLogger) (packet : Packet)
  (table : MatchTableAbstract) (handle : entry_handle_t)
  : After (Packet * MatchTableAbstract) :=
  mkAfter
    (send self (msg_hdr (device_id self) TableHit packet
                ++ [(f_table_id, VInt (table_id table));
                    (f_handle, VInt handle)]))
    (packet, table).

Definition table_miss (self : EventLogger) (packet : Packet)
  (table : MatchTableAbstract) : After (Packet * MatchTableAbstract) :=
  mkAfter
    (send self (msg_hdr (device_id self) TableMiss packet
                ++ [(f_table_id, VInt (table_id table))]))
    (packet, table).

Definition action_execute (self : EventLogger) (packet : Packet)
  (action_fn : ActionFn) (action_data : ActionData)
  : After (Packet * ActionFn * ActionData) :=
  mkAfter
    (send self (msg_hdr (device_id self) ActionExecute packet
                ++ [(f_action_id, VInt (action_id action_fn));
                    (f_action_data, VInt (action_data_ref action_data))]))
    (packet, action_fn, action_data).

(** Modelled from the spec: [void config_change();] receives no packet,
    and sections 4.1 and 6 give every message the packet id field.  The
    spec does not say what the field holds when there is no packet; 0
    stands for it here, and no statement below depends on that value. *)
Definition no_packet : packet_id_t := 0.

Definition config_change (self : EventLogger) : After unit :=
  mkAfter
    (send self [(f_device_id, VInt (device_id self));
                (f_kind, VKind ConfigChange);
                (f_packet_id, VInt no_packet)])
    tt.

(** ** Calls

    A call [fn(args)] as a call site writes it: the method and its
    arguments. *)
Inductive Call :=
| call_packet_in (packet : Packet)
| call_packet_out (packet : Packet)
| call_parser_start (packet : Packet) (parser : Parser)
| call_parser_done (packet : Packet) (parser : Parser)
| call_parser_extract (packet : Packet) (header : header_id_t)
| call_deparser_start (packet : Packet) (deparser : Deparser)
| call_deparser_done (packet : Packet) (deparser : Deparser)
| call_deparser_emit (packet : Packet) (header : header_id_t)
| call_checksum_update (packet : Packet) (checksum : Checksum)
| call_pipeline_start (packet : Packet) (pipeline : Pipeline)
| call_pipeline_done (packet : Packet) (pipeline : Pipeline)
| call_condition_eval (packet : Packet) (cond : Conditional) (result : bool)
| call_table_hit (packet : Packet) (table : MatchTableAbstract)
    (handle : entry_handle_t)
| call_table_miss (packet : Packet) (table : MatchTableAbstract)
| call_action_execute (packet : Packet) (action_fn : ActionFn)
    (action_data : ActionData)
| call_config_change.

(** [self->fn(args)]: the logger after the call, and the call with what
    the method left of the objects it was handed by reference. *)
Definition call (self : EventLogger) (c : Call) : EventLogger * Call :=
  match c with
  | call_packet_in p =>
      let r := packet_in self p in
      (logger_after r, call_packet_in (refs_after r))
  | call_packet_out p =>
      let r := packet_out self p in
      (logger_after r, call_packet_out (refs_after r))
  | call_parser_start p o =>
      let r := parser_start self p o in
      let '(p', o') := refs_after r in (logger_after r, call_parser_start p' o')
  | call_parser_done p o =>
      let r := parser_done self p o in
      let '(p', o') := refs_after r in (logger_after r, call_parser_done p' o')
  | call_parser_extract p h =>
      let r := parser_extract self p h in
      (logger_after r, call_parser_extract (refs_after r) h)
  | call_deparser_start p o =>
      let r := deparser_start self p o in
      let '(p', o') := refs_after r in
      (logger_after r, call_deparser_start p' o')
  | call_deparser_done p o =>
      let r := deparser_done self p o in
      let '(p', o') := refs_after r in
      (logger_after r, call_deparser_done p' o')
  | call_deparser_emit p h =>
      let r := deparser_emit self p h in
      (logger_after r, call_deparser_emit (refs_after r) h)
  | call_checksum_update p o =>
      let r := checksum_update self p o in
      let '(p', o') := refs_after r in
      (logger_after r, call_checksum_update p' o')
  | call_pipeline_start p o =>
      let r := pipeline_start self p o in
      let '(p', o') := refs_after r in
      (logger_after r, call_pipeline_start p' o')
  | call_pipeline_done p o =>
      let r := pipeline_done self p o in
      let '(p', o') := refs_after r in
      (logger_after r, call_pipeline_done p' o')
  | call_condition_eval p o b =>
      let r := condition_eval self p o b in
      let '(p', o') := refs_after r in
      (logger_after r, call_condition_eval p' o' b)
  | call_table_hit p o h =>
      let r := table_hit self p o h in
      let '(p', o') := refs_after r in
      (logger_after r, call_table_hit p' o' h)
  | call_table_miss p o =>
      let r := table_miss self p o in
      let '(p', o') := refs_after r in (logger_after r, call_table_miss p' o')
  | call_action_execute p f d =>
      let r := action_execute self p f d in
      let '(p', f', d') := refs_after r in
      (logger_after r, call_action_execute p' f' d')
  | call_config_change =>
      (logger_after (config_change self), call_config_change)
  end.

(** The logger after [self->fn(args)]. *)
Definition invoke (self : EventLogger) (c : Call) : EventLogger :=
  fst (call self c).

(** What a logger with device id [d] hands to its transport on a call:
    the states a collector goes through are read back. *)
Definition published (d : device_id_t) (c : Call) : list Message :=
  t_state (transport_instance
             (invoke (EventLogger_new (make_collector EmptyString) (Some d)) c)).

(** Publishing a list of messages, one publish each, in order. *)
Definition publish_all (t : TransportIface) (ms : list Message)
  : TransportIface :=
  fold_left (fun t m => fst (publish t m)) ms t.

(** ** The process

    The function-local static of [get], and the rest of the process that
    the logger is handed by const reference: the packets in flight and
    the P4 objects. *)
Record World := mkWorld {
  event_logger : option EventLogger;
  packets : list Packet;
  p4objects : list P4Object
}.

(** A process in which [get] has not run yet. *)
Definition fresh (ps : list Packet) (os : list P4Object) : World :=
  {| event_logger := None; packets := ps; p4objects := os |}.

(** [EventLogger *]: the address of the static of [get]. *)
Inductive EventLogger_ptr := static_event_logger.

(** [static EventLogger *get()]: the static is initialized the first
    time control passes through its declaration, and never again. *)
Definition get (w : World) : EventLogger_ptr * World :=
  match event_logger w with
  | Some _ => (static_event_logger, w)
  | None =>
      (static_event_logger,
       {| event_logger := Some (EventLogger_new make_dummy None);
          packets := packets w; p4objects := p4objects w |})
  end.

(** Reading and writing through the pointer. *)
Definition deref (w : World) (p : EventLogger_ptr) : option EventLogger :=
  match p with
  | static_event_logger => event_logger w
  end.

Definition update (p : EventLogger_ptr) (f : EventLogger -> EventLogger)
  (w : World) : World :=
  match p with
  | static_event_logger =>
      {| event_logger := option_map f (event_logger w);
         packets := packets w; p4objects := p4objects w |}
  end.

(** The statements of the header that go through [get()]. *)
Inductive Stmt :=
| assign_transport (t : TransportIface)  (* get()->transport_instance = std::move(transport); *)
| assign_device_id (d : device_id_t)     (* get()->device_id = device_id; *)
| call_method (c : Call).                (* bm::EventLogger::get()->fn(args) *)

Definition exec (s : Stmt) (w : World) : World :=
  let '(p, w1) := get w in
  match s with
  | assign_transport t => update p (set_transport_instance t) w1
  | assign_device_id d => update p (set_device_id d) w1
  | call_method c => update p (fun self => invoke self c) w1
  end.

Fixpoint run (ss : list Stmt) (w : World) : World :=
  match ss with
  | [] => w
  | s :: ss' => run ss' (exec s w)
  end.

(** [static void init(std::unique_ptr<TransportIface> transport,
                      device_id_t device_id = 0)]: two statements. *)
Definition init_body (transport : TransportIface)
  (device_id_arg : option device_id_t) : list Stmt :=
  [assign_transport transport;
   assign_device_id (default_arg 0 device_id_arg)].

Definition init (transport : TransportIface)
  (device_id_arg : option device_id_t) (w : World) : World :=
  run (init_body transport device_id_arg) w.

(** [#ifdef BM_ELOG_ON] ... [#else] ... [#endif]: what [BMELOG(fn, ...)]
    expands to. *)
Definition BMELOG (BM_ELOG_ON : bool) (c : Call) : list Stmt :=
  if BM_ELOG_ON then [call_method c] else [].

(** A stretch of pipeline code: its call sites, expanded. *)
Definition expand (BM_ELOG_ON : bool) (sites : list Call) : list Stmt :=
  flat_map (BMELOG BM_ELOG_ON) sites.

(** What the program does to the process. *)
Inductive Op :=
| op_get
| op_init (transport : TransportIface) (device_id_arg : option device_id_t)
| op_call (c : Call).

Definition step (o : Op) (w : World) : World :=
  match o with
  | op_get => snd (get w)
  | op_init t d => init t d w
  | op_call c => exec (call_method c) w
  end.

Fixpoint steps (os : list Op) (w : World) : World :=
  match os with
  | [] => w
  | o :: os' => steps os' (step o w)
  end.

(** ** Threads

    Interleavings of two threads, each a list of statements, at the
    granularity of one statement. *)
Inductive interleave {A : Type} : list A -> list A -> list A -> Prop :=
| interleave_nil : interleave [] [] []
| interleave_left a l1 l2 l :
    interleave l1 l2 l -> interleave (a :: l1) l2 (a :: l)
| interleave_right a l1 l2 l :
    interleave l1 l2 l -> interleave l1 (a :: l2) (a :: l).

(** The object [get()] points to once it has returned. *)
Definition the_logger (w : World) : EventLogger :=
  match deref (snd (get w)) (fst (get w)) with
  | Some self => self
  | None => EventLogger_new make_dummy None
  end.

(** What a publisher that reads both members in one step sees: the
    endpoint of the transport and the device id. *)
Definition snapshot (w : World) : string * device_id_t :=
  (t_addr (transport_instance (the_logger w)), device_id (the_logger w)).

(** The snapshots taken by the method calls of a schedule, in order. *)
Fixpoint observations (ss : list Stmt) (w : World)
  : list (string * device_id_t) :=
  match ss with
  | [] => []
  | call_method c :: ss' =>
      snapshot w :: observations ss' (exec (call_method c) w)
  | s :: ss' => observations ss' (exec s w)
  end.

Definition is_call (s : Stmt) : bool :=
  match s with
  | call_method _ => true
  | _ => false
  end.

(** ** Vocabulary of the statements *)

(** [self'] is [self] after exactly one publish, of [m], on its
    transport; nothing else differs. *)
Definition publishes_once (self : EventLogger) (m : Message)
  (self' : EventLogger) : Prop :=
  self' = set_transport_instance (fst (publish (transport_instance self) m)) self.

(** * Properties *)

(** ** The methods *)

Lemma send_publishes_once (self : EventLogger) (m : Message) :
  publishes_once self m (send self m).
Proof.
  unfold publishes_once, send.
  destruct (publish (transport_instance self) m) as [t r]; reflexivity.
Qed.

Lemma invoke_send (self : EventLogger) (c : Call) :
  exists m, published (device_id self) c = [m] /\ invoke self c = send self m.
Proof.
  destruct c; eexists; split; reflexivity.
Qed.

Lemma send_device_id (self : EventLogger) (m : Message) :
  device_id (send self m) = device_id self.
Proof.
  unfold send. destruct (publish (transport_instance self) m); reflexivity.
Qed.

Lemma send_transport (self : EventLogger) (m : Message) :
  transport_instance (send self m) = fst (publish (transport_instance self) m).
Proof.
  unfold send. destruct (publish (transport_instance self) m); reflexivity.
Qed.

Lemma publish_keeps (t : TransportIface) (m : Message) :
  t_addr (fst (publish t m)) = t_addr t /\
  t_publish (fst (publish t m)) = t_publish t.
Proof.
  unfold publish. destruct (t_publish t (t_state t) m); split; reflexivity.
Qed.

Lemma invoke_dummy (d : device_id_t) (c : Call) :
  invoke (mkEventLogger make_dummy d) c = mkEventLogger make_dummy d.
Proof.
  destruct c; reflexivity.
Qed.

(** ** [get], [exec] and [run] *)

Lemma get_eq (w : World) :
  get w = (static_event_logger,
           {| event_logger := Some (the_logger w);
              packets := packets w; p4objects := p4objects w |}).
Proof.
  unfold the_logger, get. destruct w as [[self|] ps os]; reflexivity.
Qed.

Lemma get_initialized (w : World) (self : EventLogger) :
  event_logger w = Some self -> get w = (static_event_logger, w).
Proof.
  intros H. unfold get. rewrite H. reflexivity.
Qed.

Lemma exec_eq (s : Stmt) (w : World) :
  exec s w =
  {| event_logger :=
       Some (match s with
             | assign_transport t => set_transport_instance t (the_logger w)
             | assign_device_id d => set_device_id d (the_logger w)
             | call_method c => invoke (the_logger w) c
             end);
     packets := packets w; p4objects := p4objects w |}.
Proof.
  unfold exec. rewrite get_eq. destruct s; reflexivity.
Qed.

Lemma init_eq (t : TransportIface) (arg : option device_id_t) (w : World) :
  init t arg w =
  {| event_logger := Some (mkEventLogger t (default_arg 0 arg));
     packets := packets w; p4objects := p4objects w |}.
Proof.
  unfold init, init_body, run. rewrite !exec_eq. reflexivity.
Qed.

Lemma step_initialized (o : Op) (w : World) :
  exists self, event_logger (step o w) = Some self.
Proof.
  destruct o; simpl.
  - rewrite get_eq. eexists; reflexivity.
  - rewrite init_eq. eexists; reflexivity.
  - rewrite exec_eq. eexists; reflexivity.
Qed.

Lemma steps_initialized (os : list Op) :
  forall (w : World) (self : EventLogger),
    event_logger w = Some self ->
    exists self', event_logger (steps os w) = Some self'.
Proof.
  induction os as [|o os IH]; intros w self H; simpl.
  - exists self; exact H.
  - destruct (step_initialized o w) as [self' H']. exact (IH _ _ H').
Qed.

Lemma exec_call_dummy (c : Call) (w : World) (d : device_id_t) :
  event_logger w = Some (mkEventLogger make_dummy d) ->
  exec (call_method c) w = w.
Proof.
  intros H. rewrite exec_eq.
  destruct w as [l ps os]; simpl in *. subst l.
  unfold the_logger; simpl. rewrite invoke_dummy. reflexivity.
Qed.

Lemma run_calls_dummy (cs : list Call) (w : World) (d : device_id_t) :
  event_logger w = Some (mkEventLogger make_dummy d) ->
  run (map call_method cs) w = w.
Proof.
  intros H. induction cs as [|c cs IH]; simpl; [reflexivity|].
  rewrite (exec_call_dummy c w d H). exact IH.
Qed.

(** ** Message construction *)

(** C1. Every per-event operation, all sixteen of them, does exactly one
    publish on the transport of the logger, of one message whose fields
    are, in this order, the device id of the logger, the event kind, the
    packet identifier, and then the fields of the variant in the order of
    the table of section 3.  config_change receives no packet: its
    message has the packet id field in the same place and no field after
    it.  In particular table_hit on a packet with
    id 42, a table with id 3 and handle 99 makes a collector hold exactly
    the one message device_id, kind = TableHit, packet_id = 42,
    table_id = 3, handle = 99. *)
Theorem C1_one_message_fields_in_order (self : EventLogger) (packet : Packet) :
  let hdr k := [(f_device_id, VInt (device_id self)); (f_kind, VKind k);
                (f_packet_id, VInt (packet_id packet))] in
  publishes_once self (hdr PacketIn ++ [(f_port, VInt (ingress_port packet))])
    (logger_after (packet_in self packet)) /\
  publishes_once self (hdr PacketOut ++ [(f_port, VInt (egress_port packet))])
    (logger_after (packet_out self packet)) /\
  (forall parser,
      publishes_once self
        (hdr ParserStart ++ [(f_parser_id, VInt (parser_id parser))])
        (logger_after (parser_start self packet parser))) /\
  (forall parser,
      publishes_once self
        (hdr ParserDone ++ [(f_parser_id, VInt (parser_id parser))])
        (logger_after (parser_done self packet parser))) /\
  (forall header,
      publishes_once self (hdr ParserExtract ++ [(f_header_id, VInt header)])
        (logger_after (parser_extract self packet header))) /\
  (forall deparser,
      publishes_once self
        (hdr DeparserStart ++ [(f_deparser_id, VInt (deparser_id deparser))])
        (logger_after (deparser_start self packet deparser))) /\
  (forall deparser,
      publishes_once self
        (hdr DeparserDone ++ [(f_deparser_id, VInt (deparser_id deparser))])
        (logger_after (deparser_done self packet deparser))) /\
  (forall header,
      publishes_once self (hdr DeparserEmit ++ [(f_header_id, VInt header)])
        (logger_after (deparser_emit self packet header))) /\
  (forall checksum,
      publishes_once self
        (hdr ChecksumUpdate ++ [(f_checksum_id, VInt (checksum_id checksum))])
        (logger_after (checksum_update self packet checksum))) /\
  (forall pipeline,
      publishes_once self
        (hdr PipelineStart ++ [(f_pipeline_id, VInt (pipeline_id pipeline))])
        (logger_after (pipeline_start self packet pipeline))) /\
  (forall pipeline,
      publishes_once self
        (hdr PipelineDone ++ [(f_pipeline_id, VInt (pipeline_id pipeline))])
        (logger_after (pipeline_done self packet pipeline))) /\
  (forall cond result,
      publishes_once self
        (hdr ConditionEval
         ++ [(f_cond_id, VInt (cond_id cond)); (f_result, VBool result)])
        (logger_after (condition_eval self packet cond result))) /\
  (forall table handle,
      publishes_once self
        (hdr TableHit
         ++ [(f_table_id, VInt (table_id table)); (f_handle, VInt handle)])
        (logger_after (table_hit self packet table handle))) /\
  (forall table,
      publishes_once self (hdr TableMiss ++ [(f_table_id, VInt (table_id table))])
        (logger_after (table_miss self packet table))) /\
  (forall action_fn action_data,
      publishes_once self
        (hdr ActionExecute
         ++ [(f_action_id, VInt (action_id action_fn));
             (f_action_data, VInt (action_data_ref action_data))])
        (logger_after (action_execute self packet action_fn action_data))) /\
  (exists id,
      publishes_once self
        [(f_device_id, VInt (device_id self)); (f_kind, VKind ConfigChange);
         (f_packet_id, VInt id)]
        (logger_after (config_change self))) /\
  (forall addr ingress egress,
      t_state (transport_instance
                 (logger_after
                    (table_hit
                       (mkEventLogger (make_collector addr) (device_id self))
                       (mkPacket 42 ingress egress) (mkTable 3) 99)))
      = [[(f_device_id, VInt (device_id self)); (f_kind, VKind TableHit);
          (f_packet_id, VInt 42); (f_table_id, VInt 3);
          (f_handle, VInt 99)]]).
Proof.
  intros hdr. subst hdr.
  repeat match goal with |- _ /\ _ => split end;
    intros; try apply send_publishes_once.
  - exists no_packet. apply send_publishes_once.
  - reflexivity.
Qed.

(** ** The static instance *)

(** C2. In a process where neither get nor init has run, there is no
    instance yet; get creates it, bound to the dummy transport (and with
    device id 0), and returns a pointer to it.  The dummy transport
    accepts every message without error and keeps its state as it was,
    so whatever event methods are then invoked through get, the process
    stays exactly as get left it and the transport holds no message. *)
Theorem C2_get_before_init_is_dummy (ps : list Packet) (os : list P4Object) :
  let w := fresh ps os in
  event_logger w = None /\
  deref (snd (get w)) (fst (get w)) = Some (EventLogger_new make_dummy None) /\
  (forall st m, t_publish make_dummy st m = (st, Delivered)) /\
  (forall cs, run (map call_method cs) (snd (get w)) = snd (get w)) /\
  (forall cs,
      t_state (transport_instance
                 (the_logger (run (map call_method cs) (snd (get w))))) = []).
Proof.
  intros w.
  assert (Hrun : forall cs, run (map call_method cs) (snd (get w)) = snd (get w)).
  { intros cs. apply (run_calls_dummy cs _ 0). reflexivity. }
  repeat split; try reflexivity; auto.
  intros cs. rewrite Hrun. reflexivity.
Qed.

(** C10. get is idempotent: after a first call, and whatever the program
    does next (calls of get, of init, of event methods), a call of get
    returns the pointer the first call returned and leaves the process
    as it is: it constructs nothing. *)
Theorem C10_get_same_instance (w : World) (os : list Op) :
  get (snd (get w)) = get w /\
  get (steps os (snd (get w))) = (fst (get w), steps os (snd (get w))).
Proof.
  split.
  - rewrite (get_eq w). simpl. reflexivity.
  - destruct (steps_initialized os (snd (get w)) (the_logger w)) as [self H].
    + rewrite get_eq. reflexivity.
    + rewrite (get_initialized _ _ H), (get_eq w). reflexivity.
Qed.

(** ** [init] *)

(** C9. init with the device id omitted leaves the global logger with the
    given transport and device id 0, whatever device id was configured
    before; the constructor with the device id omitted gives device
    id 0. *)
Theorem C9_omitted_device_id_is_zero (t : TransportIface) (w : World) :
  event_logger (init t None w) = Some (mkEventLogger t 0) /\
  (forall t0 d0,
      event_logger (init t None (init t0 (Some d0) w))
      = Some (mkEventLogger t 0)) /\
  device_id (EventLogger_new t None) = 0.
Proof.
  repeat split; intros; rewrite ?init_eq; reflexivity.
Qed.

(** ** The build switch *)

(** C5. With BM_ELOG_ON off, BMELOG(fn, ...) expands to nothing, and a
    stretch of code, however many call sites it has, leaves the process
    as it was: no message is built or published, the static instance is
    not even created, and packets and P4 objects are untouched. *)
Theorem C5_disabled_is_nothing :
  (forall c, BMELOG false c = []) /\
  (forall sites, expand false sites = []) /\
  (forall sites w, run (expand false sites) w = w).
Proof.
  assert (H : forall sites, expand false sites = []).
  { induction sites as [|c sites IH]; simpl; auto. }
  repeat split; auto.
  intros sites w. rewrite H. reflexivity.
Qed.

(** ** Messages after [init] *)

Lemma published_device_id_first (d : device_id_t) (c : Call) :
  Forall (fun m => hd_error m = Some (f_device_id, VInt d)) (published d c).
Proof.
  destruct c; repeat constructor.
Qed.

Lemma run_calls_published (cs : list Call) :
  forall (w : World) (self : EventLogger),
    event_logger w = Some self ->
    event_logger (run (map call_method cs) w)
    = Some (mkEventLogger
              (publish_all (transport_instance self)
                 (flat_map (published (device_id self)) cs))
              (device_id self)).
Proof.
  induction cs as [|c cs IH]; intros w self H; simpl.
  - rewrite H. destruct self; reflexivity.
  - destruct (invoke_send self c) as (m & Hm & Hi).
    rewrite (IH (exec (call_method c) w) (send self m)).
    + rewrite send_device_id, send_transport, Hm. reflexivity.
    + rewrite exec_eq. simpl. f_equal. rewrite <- Hi. f_equal.
      unfold the_logger. rewrite (get_initialized w self H). simpl.
      rewrite H. reflexivity.
Qed.

(** C3. init replaces the transport and the device id of the global
    instance.  After init with device id 7 (and likewise with any device
    id) every event method invoked through get hands the new transport
    one message, each with device id 7 as its first field.  init may run
    again at any point and replaces both again. *)
Theorem C3_init_replaces_transport_and_device_id
  (w : World) (t : TransportIface) (d : device_id_t) :
  event_logger (init t (Some d) w) = Some (mkEventLogger t d) /\
  (forall cs,
      event_logger (run (map call_method cs) (init t (Some 7) w))
      = Some (mkEventLogger
                (publish_all t (flat_map (published 7) cs)) 7) /\
      Forall (fun m => hd_error m = Some (f_device_id, VInt 7))
             (flat_map (published 7) cs)) /\
  (forall cs,
      event_logger (run (map call_method cs) (init t (Some d) w))
      = Some (mkEventLogger
                (publish_all t (flat_map (published d) cs)) d) /\
      Forall (fun m => hd_error m = Some (f_device_id, VInt d))
             (flat_map (published d) cs)) /\
  (forall os t' d',
      event_logger (init t' (Some d') (steps os (init t (Some d) w)))
      = Some (mkEventLogger t' d')).
Proof.
  assert (G : forall d0 cs,
             event_logger (run (map call_method cs) (init t (Some d0) w))
             = Some (mkEventLogger
                       (publish_all t (flat_map (published d0) cs)) d0) /\
             Forall (fun m => hd_error m = Some (f_device_id, VInt d0))
                    (flat_map (published d0) cs)).
  { intros d0 cs. split.
    - rewrite (run_calls_published cs _ (mkEventLogger t d0)); [reflexivity|].
      rewrite init_eq. reflexivity.
    - induction cs as [|c cs IH]; simpl; [constructor|].
      apply Forall_app. split; [apply published_device_id_first | exact IH]. }
  split; [rewrite init_eq; reflexivity|].
  split; [apply G|]. split; [apply G|].
  intros os t' d'. rewrite init_eq. reflexivity.
Qed.

(** ** Frame *)

(** C7. A call of an event method changes nothing but the state of the
    transport.  The packet and the P4 objects handed to it by reference
    are after the call what they were before.  The logger keeps its
    device id and its transport (same endpoint, same behaviour), and the
    state of the transport is what one publish of the message of the call
    made of it.  In the process, the statement changes the static
    instance in this way and nothing else. *)
Theorem C7_calls_mutate_nothing_else (self : EventLogger) (c : Call) :
  snd (call self c) = c /\
  (exists m,
      published (device_id self) c = [m] /\
      fst (call self c)
      = mkEventLogger
          (mkTransport
             (t_addr (transport_instance self))
             (fst (t_publish (transport_instance self)
                     (t_state (transport_instance self)) m))
             (t_publish (transport_instance self)))
          (device_id self)) /\
  (forall w,
      exec (call_method c) w
      = {| event_logger := Some (fst (call (the_logger w) c));
           packets := packets w; p4objects := p4objects w |}).
Proof.
  split; [destruct c; reflexivity|]. split.
  - destruct (invoke_send self c) as (m & Hm & Hi).
    exists m. split; [exact Hm|].
    change (fst (call self c)) with (invoke self c). rewrite Hi.
    unfold send, publish.
    destruct (t_publish (transport_instance self)
                (t_state (transport_instance self)) m) as [st r].
    reflexivity.
  - intros w. apply (exec_eq (call_method c)).
Qed.

(** ** [init] against concurrent publishers *)

Lemma the_logger_exec (s : Stmt) (w : World) :
  the_logger (exec s w)
  = match s with
    | assign_transport t => set_transport_instance t (the_logger w)
    | assign_device_id d => set_device_id d (the_logger w)
    | call_method c => invoke (the_logger w) c
    end.
Proof.
  rewrite exec_eq. reflexivity.
Qed.

Lemma snapshot_call (c : Call) (w : World) :
  snapshot (exec (call_method c) w) = snapshot w.
Proof.
  unfold snapshot. rewrite the_logger_exec.
  destruct (invoke_send (the_logger w) c) as (m & _ & ->).
  rewrite send_device_id, send_transport.
  destruct (publish_keeps (transport_instance (the_logger w)) m) as [-> _].
  reflexivity.
Qed.

Lemma snapshot_assign (s : Stmt) (w1 w2 : World) :
  is_call s = false ->
  snapshot w1 = snapshot w2 ->
  snapshot (exec s w1) = snapshot (exec s w2).
Proof.
  unfold snapshot. intros Hs H. injection H as Ha Hd.
  rewrite !the_logger_exec.
  destruct s; simpl in *; try discriminate; congruence.
Qed.

Lemma snapshot_run_prefix (l : list Stmt) :
  Forall (fun s => is_call s = false) l ->
  forall (k : nat) (w1 w2 : World),
    snapshot w1 = snapshot w2 ->
    snapshot (run (firstn k l) w1) = snapshot (run (firstn k l) w2).
Proof.
  induction 1 as [|s l Hs Hl IH]; intros k w1 w2 H.
  - rewrite firstn_nil. exact H.
  - destruct k as [|k]; simpl; [exact H|].
    apply IH. apply snapshot_assign; assumption.
Qed.

(** Every snapshot a call takes is the state after some prefix of the
    other thread. *)
Lemma observations_interleave (l1 l2 l : list Stmt) :
  interleave l1 l2 l ->
  Forall (fun s => is_call s = false) l1 ->
  Forall (fun s => is_call s = true) l2 ->
  forall w : World,
    Forall (fun o => exists k : nat, o = snapshot (run (firstn k l1) w))
           (observations l w).
Proof.
  induction 1 as [|a l1 l2 l Hi IH|a l1 l2 l Hi IH]; intros H1 H2 w.
  - constructor.
  - inversion H1 as [|? ? Ha H1']; subst.
    assert (E : observations (a :: l) w = observations l (exec a w)).
    { destruct a; simpl in *; try discriminate; reflexivity. }
    rewrite E.
    eapply Forall_impl; [|apply (IH H1' H2 (exec a w))].
    intros o [k ->]. exists (S k). reflexivity.
  - inversion H2 as [|? ? Ha H2']; subst.
    destruct a as [t|d|c]; simpl in Ha; try discriminate.
    simpl. constructor.
    + exists 0%nat. reflexivity.
    + eapply Forall_impl; [|apply (IH H1 H2' (exec (call_method c) w))].
      intros o [k ->]. exists k.
      apply snapshot_run_prefix; [assumption|apply snapshot_call].
Qed.

(** The schedule of the counterexample below, run to its end: the
    collector at B holds one message, and it carries device id 0. *)
Example mixed_pair_message :
  event_logger
    (run [assign_transport (make_collector "B");
          call_method call_config_change;
          assign_device_id 7]
       (init (make_collector "A") (Some 0) (fresh [] [])))
  = Some (mkEventLogger
            (set_state (make_collector "B")
               [[(f_device_id, VInt 0); (f_kind, VKind ConfigChange);
                 (f_packet_id, VInt no_packet)]])
            7).
Proof. reflexivity. Qed.

(** C8, as stated, fails.  The logger is bound to the endpoint A with
    device id 0; one thread runs init with the endpoint B and device
    id 7, another calls config_change, and the call is scheduled between
    the two assignments of init: the publisher sees the endpoint B with
    device id 0, which is neither the old pair nor the new one. *)
Lemma C8_mixed_pair_observed :
  ~ (forall (w : World) (tB : TransportIface) (dB : device_id_t)
            (cs : list Call) (sched : list Stmt),
        interleave (init_body tB (Some dB)) (map call_method cs) sched ->
        Forall (fun o => o = snapshot w \/ o = (t_addr tB, dB))
               (observations sched w)).
Proof.
  intros H.
  pose (w := init (make_collector "A") (Some 0) (fresh [] [])).
  pose (tB := make_collector "B").
  assert (Hi : interleave (init_body tB (Some 7))
                 (map call_method [call_config_change])
                 [assign_transport tB; call_method call_config_change;
                  assign_device_id 7]).
  { repeat constructor. }
  specialize (H w tB 7 [call_config_change] _ Hi).
  inversion H as [|o os [Ho|Ho] _]; discriminate Ho.
Qed.

(** C8, amended.  init is two assignments, the transport first and the
    device id second, and nothing makes the pair indivisible.  When init
    is interleaved, statement by statement, with calls of event methods
    that read both members in one step, each call sees the old transport
    with the old device id, or the new transport with the old device id,
    or the new transport with the new device id.  So the device id seen
    is always the old or the new one, and so is the transport. *)
Theorem C8_init_is_two_assignments
  (w : World) (tB : TransportIface) (dB : device_id_t)
  (cs : list Call) (sched : list Stmt) :
  interleave (init_body tB (Some dB)) (map call_method cs) sched ->
  Forall (fun o => o = snapshot w
                   \/ o = (t_addr tB, snd (snapshot w))
                   \/ o = (t_addr tB, dB))
         (observations sched w).
Proof.
  intros Hi.
  eapply Forall_impl;
    [|apply (observations_interleave _ _ _ Hi)].
  - intros o [k ->].
    destruct k as [|[|k]]; simpl.
    + left; reflexivity.
    + right; left. unfold snapshot. rewrite the_logger_exec. reflexivity.
    + right; right. rewrite firstn_nil. simpl.
      unfold snapshot. rewrite !the_logger_exec. reflexivity.
  - repeat constructor.
  - clear Hi. induction cs; simpl; constructor; auto.
Qed.

Lemma C8_init_is_two_assignments_witness :
  Forall (fun o => o = snapshot (fresh [] [])
                   \/ o = (t_addr (make_collector "B"),
                           snd (snapshot (fresh [] [])))
                   \/ o = (t_addr (make_collector "B"), 7))
         (observations
            [assign_transport (make_collector "B");
             call_method call_config_change;
             assign_device_id 7]
            (fresh [] [])).
Proof.
  apply (C8_init_is_two_assignments (fresh [] []) (make_collector "B") 7
           [call_config_change]).
  simpl. apply interleave_left. apply interleave_right.
  apply interleave_left. apply interleave_nil.
Defined.

(** ** Further properties of [get] and [init] *)

Lemma the_logger_get (w : World) : the_logger (snd (get w)) = the_logger w.
Proof.
  rewrite (get_eq w). reflexivity.
Qed.

(** X1. Every statement and every operation goes through get() itself,
    so a call of get() placed before it changes nothing in its outcome:
    an explicit first access is never needed. *)
Theorem get_is_absorbed (w : World) :
  (forall s, exec s (snd (get w)) = exec s w) /\
  (forall o, step o (snd (get w)) = step o w).
Proof.
  assert (E : forall s, exec s (snd (get w)) = exec s w).
  { intros s. rewrite !exec_eq, the_logger_get, (get_eq w). reflexivity. }
  split; [exact E|].
  intros [|t d|c]; simpl.
  - rewrite (get_eq w). reflexivity.
  - rewrite !init_eq, (get_eq w). reflexivity.
  - apply E.
Qed.

(** X2. Run one after the other, the two assignments of init commute:
    assigning the device id first and the transport second leaves the
    process exactly as init does. *)
Theorem init_assignments_commute
  (t : TransportIface) (d : device_id_t) (w : World) :
  exec (assign_transport t) (exec (assign_device_id d) w)
  = exec (assign_device_id d) (exec (assign_transport t) w) /\
  run [assign_device_id d; assign_transport t] w = init t (Some d) w.
Proof.
  split.
  - rewrite !exec_eq. reflexivity.
  - rewrite init_eq. simpl. rewrite !exec_eq. reflexivity.
Qed.

(** Calls on one thread, assignments on the other: where the logger
    points and which device id it has at the end is what the assignments
    alone would have left. *)
Lemma snapshot_interleave (l1 l2 l : list Stmt) :
  interleave l1 l2 l ->
  Forall (fun s => is_call s = false) l1 ->
  Forall (fun s => is_call s = true) l2 ->
  forall w : World, snapshot (run l w) = snapshot (run l1 w).
Proof.
  induction 1 as [|a l1 l2 l Hi IH|a l1 l2 l Hi IH]; intros H1 H2 w.
  - reflexivity.
  - inversion H1; subst. simpl. apply IH; assumption.
  - inversion H2 as [|? ? Ha H2']; subst.
    destruct a as [t|d|c]; simpl in Ha; try discriminate.
    simpl. rewrite (IH H1 H2').
    rewrite <- (firstn_all l1).
    apply snapshot_run_prefix; [assumption|apply snapshot_call].
Qed.

(** X5. However the calls of a publisher thread are interleaved with the
    two assignments of init, once both threads are through the logger
    points to the new endpoint with the new device id. *)
Theorem init_wins_over_publishers
  (w : World) (tB : TransportIface) (dB : device_id_t)
  (cs : list Call) (sched : list Stmt) :
  interleave (init_body tB (Some dB)) (map call_method cs) sched ->
  snapshot (run sched w) = (t_addr tB, dB).
Proof.
  intros Hi.
  rewrite (snapshot_interleave _ _ _ Hi).
  - unfold snapshot. change (run (init_body tB (Some dB)) w)
      with (init tB (Some dB) w).
    rewrite init_eq. reflexivity.
  - repeat constructor.
  - clear Hi. induction cs; simpl; constructor; auto.
Qed.

Lemma init_wins_over_publishers_witness :
  snapshot
    (run [assign_transport (make_collector "B");
          call_method call_config_change;
          assign_device_id 7]
       (fresh [] []))
  = (t_addr (make_collector "B"), 7).
Proof.
  apply (init_wins_over_publishers (fresh [] []) (make_collector "B") 7
           [call_config_change]).
  simpl. apply interleave_left. apply interleave_right.
  apply interleave_left. apply interleave_nil.
Defined.

(** X3. Two threads that both run init: whatever the interleaving of
    their four assignments, the logger ends with the transport of one of
    the two calls and the device id of one of the two calls. *)
Theorem concurrent_inits_final_state
  (w : World) (tA tB : TransportIface) (dA dB : device_id_t)
  (sched : list Stmt) :
  interleave (init_body tA (Some dA)) (init_body tB (Some dB)) sched ->
  exists t d,
    event_logger (run sched w) = Some (mkEventLogger t d) /\
    (t = tA \/ t = tB) /\ (d = dA \/ d = dB).
Proof.
  unfold init_body, default_arg. intros Hi.
  repeat match goal with
         | H : interleave _ _ _ |- _ => inversion H; subst; clear H
         end;
    simpl; rewrite !exec_eq;
    do 2 eexists; (split; [reflexivity|]); auto.
Qed.

Lemma concurrent_inits_final_state_witness :
  exists t d,
    event_logger
      (run [assign_transport (make_collector "A");
            assign_transport (make_collector "B");
            assign_device_id 2; assign_device_id 1]
         (fresh [] []))
    = Some (mkEventLogger t d) /\
    (t = make_collector "A" \/ t = make_collector "B") /\
    (d = 1 \/ d = 2).
Proof.
  apply (concurrent_inits_final_state (fresh [] [])
           (make_collector "A") (make_collector "B") 1 2).
  simpl. apply interleave_left. apply interleave_right.
  apply interleave_right. apply interleave_left. apply interleave_nil.
Defined.

(** X4. Two threads that both run init can leave the logger with a pair
    that neither of them asked for: there is an interleaving that ends
    with the transport of the first call and the device id of the
    second, and one that ends with the transport of the second and the
    device id of the first. *)
Theorem concurrent_inits_can_mix
  (w : World) (tA tB : TransportIface) (dA dB : device_id_t) :
  (exists sched,
      interleave (init_body tA (Some dA)) (init_body tB (Some dB)) sched /\
      event_logger (run sched w) = Some (mkEventLogger tA dB)) /\
  (exists sched,
      interleave (init_body tA (Some dA)) (init_body tB (Some dB)) sched /\
      event_logger (run sched w) = Some (mkEventLogger tB dA)).
Proof.
  split.
  - exists [assign_transport tB; assign_transport tA;
            assign_device_id dA; assign_device_id dB].
    split.
    + apply interleave_right. apply interleave_left. apply interleave_left.
      apply interleave_right. apply interleave_nil.
    + simpl. rewrite !exec_eq. reflexivity.
  - exists [assign_transport tA; assign_transport tB;
            assign_device_id dB; assign_device_id dA].
    split.
    + apply interleave_left. apply interleave_right. apply interleave_right.
      apply interleave_left. apply interleave_nil.
    + simpl. rewrite !exec_eq. reflexivity.
Qed.

End bm.
